(** * Mergington High School activities API: a model of [src/app.py]

    The FastAPI handlers of [src/app.py] are embedded as computations in a
    small session monad over a two-table database.  Tables are lists of
    rows in storage (rowid) order, which is the order [select(...).all()]
    returns them in and the one [.first()] takes its row from. *)

From stdpp Require Import gmap strings list fin_maps.
From Stdlib Require Import ZArith Lia.

Local Open Scope string_scope.
Local Open Scope list_scope.

(** ** The rows of [models.py] *)

(** Modelled from the spec: [models.py] is not part of the sources; the
    [Activity] row has the fields the data model lists and the handlers
    read ([id], [name], [description], [schedule], [max_participants]). *)
Module Activity.
Record t : Type := Build {
  id : Z;
  name : string;
  description : string;
  schedule : string;
  max_participants : Z
}.
End Activity.

(** Modelled from the spec: the [Participant] row of [models.py], with the
    fields [id], [email] and [activity_id]. *)
Module Participant.
Record t : Type := Build {
  id : Z;
  email : string;
  activity_id : Z
}.
End Participant.

Global Instance activity_eq_dec : EqDecision Activity.t.
Proof. solve_decision. Defined.

Global Instance participant_eq_dec : EqDecision Participant.t.
Proof. solve_decision. Defined.

(** ** The database behind [engine] *)

Record DB : Type := MkDB {
  activity_table : list Activity.t;
  participant_table : list Participant.t
}.

Definition empty_db : DB := MkDB [] [].

(** Modelled from the spec: identifiers are "assigned by storage on
    creation".  The storage engine gives a new row the successor of the
    largest identifier in its table, and 1 in an empty table. *)
Definition next_rowid (ids : list Z) : Z := (foldr Z.max 0 ids + 1)%Z.

(** ** Sessions and HTTP outcomes *)

Record HTTPException : Type := MkHTTPException {
  status_code : Z;
  detail : string
}.

(** A computation inside [with Session(engine) as session:].  It either
    raises or returns a value together with the database it leaves. *)
Definition Session (A : Type) : Type := DB → HTTPException + (A * DB).

Global Instance session_ret : MRet Session := λ A x db, inr (x, db).

Global Instance session_bind : MBind Session := λ A B k m db,
  match m db with
  | inl exc => inl exc
  | inr (x, db') => k x db'
  end.

Definition raise {A : Type} (exc : HTTPException) : Session A :=
  λ _, inl exc.

(** [session.exec(query)] for a read-only query. *)
Definition exec {A : Type} (query : DB → A) : Session A :=
  λ db, inr (query db, db).

(** What the caller of a route receives. *)
Inductive Response (A : Type) : Type :=
  | OK (body : A)
  | HTTPError (exc : HTTPException).
Arguments OK {A} body.
Arguments HTTPError {A} exc.

(** Serving one request: an exception leaves the [with] block before any
    commit, so the stored state is the one the request started from. *)
Definition request {A : Type} (handler : Session A) (db : DB) : Response A * DB :=
  match handler db with
  | inl exc => (HTTPError exc, db)
  | inr (body, db') => (OK body, db')
  end.

(** ** Queries *)

(** [select(Activity).where(Activity.name == activity_name)] *)
Definition select_activity_by_name (activity_name : string) (db : DB)
  : list Activity.t :=
  filter (λ a, Activity.name a = activity_name) (activity_table db).

(** [select(Participant).where(Participant.activity_id == act.id)] *)
Definition select_participants (activity_id : Z) (db : DB)
  : list Participant.t :=
  filter (λ p, Participant.activity_id p = activity_id) (participant_table db).

(** [.where(Participant.activity_id == activity.id).where(Participant.email == email)] *)
Definition select_participant_by_email (activity_id : Z) (email : string) (db : DB)
  : list Participant.t :=
  filter (λ p, Participant.email p = email) (select_participants activity_id db).

(** [.first()] *)
Definition first {A : Type} (rows : list A) : option A := head rows.

(** ** Writes *)

(** [session.add(Activity(...)); session.commit(); session.refresh(activity)] *)
Definition add_activity (name description schedule : string) (max_participants : Z)
  : Session Activity.t :=
  λ db,
    let activity :=
      Activity.Build (next_rowid (Activity.id <$> activity_table db))
                     name description schedule max_participants in
    inr (activity, MkDB (activity_table db ++ [activity]) (participant_table db)).

(** [session.add(Participant(email=email, activity_id=activity.id))] *)
Definition add_participant (email : string) (activity_id : Z) : Session unit :=
  λ db,
    let p :=
      Participant.Build (next_rowid (Participant.id <$> participant_table db))
                        email activity_id in
    inr ((), MkDB (activity_table db) (participant_table db ++ [p])).

(** [session.delete(participant)]: the row with that primary key goes. *)
Definition delete_participant (participant : Participant.t) : Session unit :=
  λ db,
    inr ((), MkDB (activity_table db)
                  (filter (λ p, Participant.id p ≠ Participant.id participant)
                          (participant_table db))).

(** A [for] loop whose body runs in the session. *)
Fixpoint for_each {A : Type} (xs : list A) (body : A → Session unit) : Session unit :=
  match xs with
  | [] => mret ()
  | x :: rest => body x ;; for_each rest body
  end.

(** ** [seed_data] *)

Definition samples : list (string * string * string * Z * list string) :=
  [ ("Chess Club", "Learn strategies and compete in chess tournaments",
     "Fridays, 3:30 PM - 5:00 PM", 12%Z,
     ["michael@mergington.edu"; "daniel@mergington.edu"]);
    ("Programming Class", "Learn programming fundamentals and build software projects",
     "Tuesdays and Thursdays, 3:30 PM - 4:30 PM", 20%Z,
     ["emma@mergington.edu"; "sophia@mergington.edu"]);
    ("Gym Class", "Physical education and sports activities",
     "Mondays, Wednesdays, Fridays, 2:00 PM - 3:00 PM", 30%Z,
     ["john@mergington.edu"; "olivia@mergington.edu"]);
    ("Soccer Team", "Join the school soccer team and compete in matches",
     "Tuesdays and Thursdays, 4:00 PM - 5:30 PM", 22%Z,
     ["liam@mergington.edu"; "noah@mergington.edu"]);
    ("Basketball Team", "Practice and play basketball with the school team",
     "Wednesdays and Fridays, 3:30 PM - 5:00 PM", 15%Z,
     ["ava@mergington.edu"; "mia@mergington.edu"]);
    ("Art Club", "Explore your creativity through painting and drawing",
     "Thursdays, 3:30 PM - 5:00 PM", 15%Z,
     ["amelia@mergington.edu"; "harper@mergington.edu"]);
    ("Drama Club", "Act, direct, and produce plays and performances",
     "Mondays and Wednesdays, 4:00 PM - 5:30 PM", 20%Z,
     ["ella@mergington.edu"; "scarlett@mergington.edu"]);
    ("Math Club", "Solve challenging problems and participate in math competitions",
     "Tuesdays, 3:30 PM - 4:30 PM", 10%Z,
     ["james@mergington.edu"; "benjamin@mergington.edu"]);
    ("Debate Team", "Develop public speaking and argumentation skills",
     "Fridays, 4:00 PM - 5:30 PM", 12%Z,
     ["charlotte@mergington.edu"; "henry@mergington.edu"]) ].

Definition seed_data : Session unit :=
  count ← exec activity_table;
  match count with
  | _ :: _ => mret ()
  | [] =>
    for_each samples (λ '(name, desc, sched, max_p, participants),
      activity ← add_activity name desc sched max_p;
      for_each participants (λ email,
        add_participant email (Activity.id activity)))
  end.

(** ** [get_activities] *)

(** The value stored under each activity name. *)
Record ActivityInfo : Type := MkActivityInfo {
  info_description : string;
  info_schedule : string;
  info_max_participants : Z;
  info_participants : list string
}.

Definition activity_info (db : DB) (act : Activity.t) : ActivityInfo :=
  MkActivityInfo (Activity.description act) (Activity.schedule act)
                 (Activity.max_participants act)
                 (Participant.email <$> select_participants (Activity.id act) db).

Definition get_activities : Session (gmap string ActivityInfo) :=
  exec (λ db,
    foldl (λ result act, <[Activity.name act := activity_info db act]> result)
          ∅ (activity_table db)).

(** ** [signup_for_activity] *)

Definition signup_for_activity (activity_name email : string)
  : Session (gmap string string) :=
  activity ← exec (λ db, first (select_activity_by_name activity_name db));
  match activity with
  | None => raise (MkHTTPException 404 "Activity not found")
  | Some activity =>
    participants ← exec (select_participants (Activity.id activity));
    if existsb (λ p, bool_decide (Participant.email p = email)) participants
    then raise (MkHTTPException 400 "Student is already signed up")
    else if bool_decide (Z.of_nat (length participants)
                         >= Activity.max_participants activity)%Z
    then raise (MkHTTPException 400 "Activity is full")
    else
      add_participant email (Activity.id activity) ;;
      mret {[ "message" := "Signed up " +:+ email +:+ " for " +:+ activity_name ]}
  end.

(** ** [unregister_from_activity] *)

Definition unregister_from_activity (activity_name email : string)
  : Session (gmap string string) :=
  activity ← exec (λ db, first (select_activity_by_name activity_name db));
  match activity with
  | None => raise (MkHTTPException 404 "Activity not found")
  | Some activity =>
    participant ←
      exec (λ db, first (select_participant_by_email (Activity.id activity) email db));
    match participant with
    | None => raise (MkHTTPException 400 "Student is not signed up for this activity")
    | Some participant =>
      delete_participant participant ;;
      mret {[ "message" := "Unregistered " +:+ email +:+ " from " +:+ activity_name ]}
    end
  end.

(** ** Application start and the operations of the service *)

(** The state [on_startup] leaves on a fresh database file. *)
Definition initial_db : DB := (request seed_data empty_db).2.

Inductive Operation : Type :=
  | ListActivities
  | SignUp (activity_name email : string)
  | Unregister (activity_name email : string).

Definition step (op : Operation) (db : DB) : DB :=
  match op with
  | ListActivities => (request get_activities db).2
  | SignUp activity_name email =>
      (request (signup_for_activity activity_name email) db).2
  | Unregister activity_name email =>
      (request (unregister_from_activity activity_name email) db).2
  end.

Inductive reachable : DB → Prop :=
  | reachable_init : reachable initial_db
  | reachable_step op db : reachable db → reachable (step op db).

(** ** Vocabulary of the statements *)

(** The row a handler works on: the first activity with that name. *)
Definition activity_named (activity_name : string) (db : DB) : option Activity.t :=
  first (select_activity_by_name activity_name db).

(** The participant rows of an activity, as the handlers select them. *)
Definition roster (a : Activity.t) (db : DB) : list Participant.t :=
  select_participants (Activity.id a) db.

Definition roster_emails (a : Activity.t) (db : DB) : list string :=
  Participant.email <$> roster a db.

(** Modelled from the spec: [id] is the "unique identifier" of a row in
    each table of [models.py]. *)
Definition activity_pk (db : DB) : Prop :=
  NoDup (Activity.id <$> activity_table db).

(** Modelled from the spec: the [id] of a Participant row is its "unique
    identifier"; it is the key [session.delete] removes a row by. *)
Definition participant_pk (db : DB) : Prop :=
  NoDup (Participant.id <$> participant_table db).

(** Modelled from the spec: [name] is the "unique human-readable label"
    of an activity. *)
Definition activity_name_unique (db : DB) : Prop :=
  NoDup (Activity.name <$> activity_table db).

(** Modelled from the spec: [activity_id] is a "reference to owning
    Activity". *)
Definition participant_fk (db : DB) : Prop :=
  Forall (λ p, Participant.activity_id p ∈ Activity.id <$> activity_table db)
         (participant_table db).

(** The application-level invariants. *)
Definition enrollment_unique (db : DB) : Prop :=
  NoDup ((λ p, (Participant.activity_id p, Participant.email p))
           <$> participant_table db).

Definition within_capacity (db : DB) : Prop :=
  Forall (λ a, (Z.of_nat (length (roster a db)) ≤ Activity.max_participants a)%Z)
         (activity_table db).

(** The entries [get_activities] is expected to return after seeding. *)
Definition seeded_entries : list (string * ActivityInfo) :=
  (λ '(name, desc, sched, max_p, participants),
     (name, MkActivityInfo desc sched max_p participants)) <$> samples.

(** An activity row read back in the shape of a [samples] entry. *)
Definition as_sample (db : DB) (a : Activity.t)
  : string * string * string * Z * list string :=
  (Activity.name a, Activity.description a, Activity.schedule a,
   Activity.max_participants a, roster_emails a db).

(** ** Sample rows and states *)

(** The first seeded activity as it is stored. *)
Definition chess_club : Activity.t :=
  Activity.Build 1 "Chess Club" "Learn strategies and compete in chess tournaments"
                 "Fridays, 3:30 PM - 5:00 PM" 12.

(** The eighth seeded activity as it is stored. *)
Definition math_club : Activity.t :=
  Activity.Build 8 "Math Club"
                 "Solve challenging problems and participate in math competitions"
                 "Tuesdays, 3:30 PM - 4:30 PM" 10.

(** A database whose only activity has a capacity of two and is full. *)
Definition duo : Activity.t :=
  Activity.Build 1 "Duo" "Two seats" "Mondays" 2.

Definition full_db : DB :=
  MkDB [duo]
       [Participant.Build 1 "michael@mergington.edu" 1;
        Participant.Build 2 "daniel@mergington.edu" 1].

(** ** [create_db_and_tables] and [on_startup] *)

(** [SQLModel.metadata.create_all(engine)]: a database file that does not
    exist yet gets both tables, empty; tables that exist keep their rows. *)
Definition create_db_and_tables (file : option DB) : DB :=
  default empty_db file.

(** The database [on_startup] leaves behind: the tables are created, then
    seeded.  The directory creation before and the static mount after do
    not touch the database. *)
Definition on_startup (file : option DB) : DB :=
  (request seed_data (create_db_and_tables file)).2.

(** Every row of the first database is still there, at its place, in the
    second. *)
Definition keeps_rows (db db' : DB) : Prop :=
  activity_table db `prefix_of` activity_table db' ∧
  participant_table db `prefix_of` participant_table db'.

(** A database in which one student holds two rows of the same activity,
    as two racing signups can leave it. *)
Definition doubled_db : DB :=
  MkDB [chess_club]
       [Participant.Build 1 "michael@mergington.edu" 1;
        Participant.Build 2 "zoe@mergington.edu" 1;
        Participant.Build 3 "zoe@mergington.edu" 1].

(** * Properties *)

Local Ltac by_computation := apply (bool_decide_unpack _); by vm_compute.

(** ** Rows selected and deleted by key *)

Section keyed_lists.
Context {A K : Type} (key : A → K).

Lemma filter_all (P : A → Prop) `{!∀ x, Decision (P x)} (l : list A) :
  Forall P l → filter P l = l.
Proof.
  induction 1 as [|x l Hx _ IH]; [done|].
  by rewrite filter_cons_True, IH.
Qed.

Lemma filter_agree (P Q : A → Prop)
    `{!∀ x, Decision (P x), !∀ x, Decision (Q x)} (l : list A) :
  (∀ x, x ∈ l → P x ↔ Q x) → filter P l = filter Q l.
Proof.
  induction l as [|x l IH]; intros Hagree; [done|].
  rewrite !filter_cons, IH by (intros y Hy; apply Hagree; by right).
  apply decide_ext, Hagree. left.
Qed.

Lemma Forall_filter_keep (P Q : A → Prop) `{!∀ x, Decision (Q x)} (l : list A) :
  Forall P l → Forall P (filter Q l).
Proof.
  rewrite !Forall_forall. intros HP x [_ Hx]%list_elem_of_filter. by apply HP.
Qed.

Lemma length_filter_after (P Q : A → Prop)
    `{!∀ x, Decision (P x), !∀ x, Decision (Q x)} (l : list A) :
  (length (filter P (filter Q l)) ≤ length (filter P l))%nat.
Proof.
  induction l as [|x l IH]; [done|].
  rewrite (filter_cons Q). case_decide; rewrite !filter_cons;
    case_decide; simpl; lia.
Qed.

Lemma key_inj (l : list A) (x y : A) :
  NoDup (key <$> l) → x ∈ l → y ∈ l → key x = key y → x = y.
Proof.
  induction l as [|z l IH]; intros Hnodup Hx Hy Hkey.
  - by apply elem_of_nil in Hx.
  - rewrite fmap_cons, NoDup_cons in Hnodup. destruct Hnodup as [Hz Hl].
    apply elem_of_cons in Hx as [->|Hx]; apply elem_of_cons in Hy as [->|Hy].
    + done.
    + destruct Hz. rewrite Hkey. by apply list_elem_of_fmap_2.
    + destruct Hz. rewrite <-Hkey. by apply list_elem_of_fmap_2.
    + by apply IH.
Qed.

Lemma NoDup_key_filter (P : A → Prop) `{!∀ x, Decision (P x)} (l : list A) :
  NoDup (key <$> l) → NoDup (key <$> filter P l).
Proof.
  induction l as [|x l IH]; [done|].
  rewrite fmap_cons, NoDup_cons. intros [Hx Hl].
  rewrite filter_cons. case_decide; [|by apply IH].
  rewrite fmap_cons, NoDup_cons. split; [|by apply IH].
  intros (y & Hkey & [_ Hy]%list_elem_of_filter)%list_elem_of_fmap.
  apply Hx. rewrite Hkey. by apply list_elem_of_fmap_2.
Qed.

Lemma delete_by_key `{!EqDecision K} (l1 l2 : list A) (x : A) :
  NoDup (key <$> (l1 ++ x :: l2)) →
  filter (λ y, key y ≠ key x) (l1 ++ x :: l2) = l1 ++ l2.
Proof.
  intros Hnodup.
  assert (∀ y, y ∈ l1 ++ l2 → key y ≠ key x) as Hothers.
  { intros y Hy Hkey.
    rewrite fmap_app, fmap_cons in Hnodup.
    apply NoDup_app in Hnodup as (_ & Hdisj & [Hx _]%NoDup_cons).
    apply elem_of_app in Hy as [Hy|Hy].
    - apply (Hdisj (key y)); [by apply list_elem_of_fmap_2|].
      rewrite Hkey. left.
    - apply Hx. rewrite <-Hkey. by apply list_elem_of_fmap_2. }
  rewrite filter_app, filter_cons_False by (intros Hne; by apply Hne).
  rewrite !filter_all; [done| |]; apply Forall_forall; intros y Hy;
    apply Hothers, elem_of_app; [by right|by left].
Qed.
End keyed_lists.

(** ** The handlers, case by case *)

Lemma signup_cases activity_name email db :
  request (signup_for_activity activity_name email) db =
  match activity_named activity_name db with
  | None => (HTTPError (MkHTTPException 404 "Activity not found"), db)
  | Some a =>
    if existsb (λ p, bool_decide (Participant.email p = email)) (roster a db)
    then (HTTPError (MkHTTPException 400 "Student is already signed up"), db)
    else if bool_decide (Z.of_nat (length (roster a db))
                         >= Activity.max_participants a)%Z
    then (HTTPError (MkHTTPException 400 "Activity is full"), db)
    else (OK {[ "message" := "Signed up " +:+ email +:+ " for " +:+ activity_name ]},
          MkDB (activity_table db)
               (participant_table db ++
                  [Participant.Build
                     (next_rowid (Participant.id <$> participant_table db))
                     email (Activity.id a)]))
  end.
Proof.
  unfold request, signup_for_activity, activity_named, roster, exec, raise,
    add_participant, mbind, mret, session_bind, session_ret.
  destruct (first _) as [a|]; [|done].
  destruct (existsb _ _); [done|].
  by destruct (bool_decide _).
Qed.

Lemma unregister_cases activity_name email db :
  request (unregister_from_activity activity_name email) db =
  match activity_named activity_name db with
  | None => (HTTPError (MkHTTPException 404 "Activity not found"), db)
  | Some a =>
    match first (select_participant_by_email (Activity.id a) email db) with
    | None =>
      (HTTPError (MkHTTPException 400 "Student is not signed up for this activity"), db)
    | Some p =>
      (OK {[ "message" := "Unregistered " +:+ email +:+ " from " +:+ activity_name ]},
       MkDB (activity_table db)
            (filter (λ q, Participant.id q ≠ Participant.id p) (participant_table db)))
    end
  end.
Proof.
  unfold request, unregister_from_activity, activity_named, exec, raise,
    delete_participant, mbind, mret, session_bind, session_ret.
  destruct (first (select_activity_by_name _ _)) as [a|]; [|done].
  by destruct (first _).
Qed.

Lemma get_activities_cases db :
  request get_activities db =
  (OK (foldl (λ result act, <[Activity.name act := activity_info db act]> result)
             ∅ (activity_table db)), db).
Proof. done. Qed.

(** ** Lookups *)

Lemma activity_named_Some activity_name db a :
  activity_named activity_name db = Some a →
  a ∈ activity_table db ∧ Activity.name a = activity_name.
Proof.
  unfold activity_named, first, select_activity_by_name. intros Hhd.
  apply head_Some_elem_of in Hhd. apply list_elem_of_filter in Hhd.
  by destruct Hhd.
Qed.

Lemma activity_named_None activity_name db :
  activity_named activity_name db = None ↔
  activity_name ∉ Activity.name <$> activity_table db.
Proof.
  unfold activity_named, first, select_activity_by_name.
  rewrite head_None. split.
  - intros Hnil [a [-> Ha]]%list_elem_of_fmap.
    assert (a ∈ filter (λ a0, Activity.name a0 = Activity.name a) (activity_table db))
      as Hin by (by apply list_elem_of_filter).
    rewrite Hnil in Hin. by apply not_elem_of_nil in Hin.
  - intros Hnot.
    destruct (filter _ _) as [|a rest] eqn:Hsel; [done|].
    assert (a ∈ filter (λ a0, Activity.name a0 = activity_name) (activity_table db))
      as [Hname Hin]%list_elem_of_filter by (rewrite Hsel; left).
    destruct Hnot. apply list_elem_of_fmap. by exists a.
Qed.

Lemma activity_named_unique activity_name db a :
  activity_name_unique db →
  a ∈ activity_table db →
  Activity.name a = activity_name →
  activity_named activity_name db = Some a.
Proof.
  unfold activity_name_unique, activity_named, first, select_activity_by_name.
  intros Hnodup Hin <-.
  induction (activity_table db) as [|b l IH]; [by apply elem_of_nil in Hin|].
  rewrite fmap_cons, NoDup_cons in Hnodup. destruct Hnodup as [Hb Hl].
  rewrite filter_cons. apply elem_of_cons in Hin as [->|Hin].
  - by rewrite decide_True.
  - rewrite decide_False; [by apply IH|].
    intros Heq. apply Hb. rewrite Heq. apply list_elem_of_fmap. by exists a.
Qed.

Lemma any_email email (ps : list Participant.t) :
  existsb (λ p, bool_decide (Participant.email p = email)) ps = true ↔
  email ∈ Participant.email <$> ps.
Proof.
  induction ps as [|p ps IH]; simpl.
  - split; [done|]. by intros ?%elem_of_nil.
  - rewrite orb_true_iff, bool_decide_eq_true, IH, elem_of_cons.
    split; (intros [?|?]; [by left|by right]).
Qed.

Lemma any_email_false email (ps : list Participant.t) :
  existsb (λ p, bool_decide (Participant.email p = email)) ps = false ↔
  email ∉ Participant.email <$> ps.
Proof. rewrite <-any_email. by destruct (existsb _ _). Qed.

(** ** Storage identifiers *)

Lemma next_rowid_above (ids : list Z) (i : Z) :
  i ∈ ids → (i < next_rowid ids)%Z.
Proof.
  unfold next_rowid. induction 1 as [i ids|i j ids _ IH]; simpl; lia.
Qed.

Lemma next_rowid_fresh (ids : list Z) : next_rowid ids ∉ ids.
Proof. intros Hin%next_rowid_above. lia. Qed.

(** ** The listing *)

Section listing.
Context (db : DB).

Let put (result : gmap string ActivityInfo) (act : Activity.t) :=
  <[Activity.name act := activity_info db act]> result.

Lemma listing_other (acts : list Activity.t) result activity_name :
  activity_name ∉ Activity.name <$> acts →
  foldl put result acts !! activity_name = result !! activity_name.
Proof.
  revert result. induction acts as [|b acts IH]; intros result Hnot; [done|].
  rewrite fmap_cons, not_elem_of_cons in Hnot. destruct Hnot as [Hb Hacts].
  simpl. rewrite IH by done. unfold put. by rewrite lookup_insert_ne.
Qed.

Lemma listing_entry (acts : list Activity.t) result a :
  NoDup (Activity.name <$> acts) →
  a ∈ acts →
  foldl put result acts !! Activity.name a = Some (activity_info db a).
Proof.
  revert result. induction acts as [|b acts IH]; intros result Hnodup Hin.
  - by apply elem_of_nil in Hin.
  - rewrite fmap_cons, NoDup_cons in Hnodup. destruct Hnodup as [Hb Hacts].
    simpl. apply elem_of_cons in Hin as [->|Hin]; [|by apply IH].
    rewrite listing_other by done. unfold put. by rewrite lookup_insert_eq.
Qed.
End listing.

Lemma get_activities_entry db a :
  activity_name_unique db →
  a ∈ activity_table db →
  ∃ listing, request get_activities db = (OK listing, db) ∧
             listing !! Activity.name a = Some (activity_info db a).
Proof.
  intros Hnames Hin. rewrite get_activities_cases. eexists. split; [done|].
  by apply listing_entry.
Qed.

Lemma roster_add db a (p : Participant.t) :
  roster a (MkDB (activity_table db) (participant_table db ++ [p])) =
  roster a db ++
    (if decide (Participant.activity_id p = Activity.id a) then [p] else []).
Proof.
  unfold roster, select_participants. simpl. by rewrite filter_app.
Qed.

(** ** Signing up *)

(** C1: when the named activity exists, the email is not on its roster and
    the roster is below capacity, signup answers with the confirmation
    message alone and appends one new Participant row carrying that email
    and the activity's id; the roster grows by exactly that row, and the
    next listing shows the email under the activity's name. *)
Theorem signup_success db activity_name email a :
  activity_name_unique db →
  activity_named activity_name db = Some a →
  email ∉ roster_emails a db →
  (Z.of_nat (length (roster a db)) < Activity.max_participants a)%Z →
  ∃ p db' listing info,
    request (signup_for_activity activity_name email) db =
      (OK {[ "message" := "Signed up " +:+ email +:+ " for " +:+ activity_name ]}, db') ∧
    Participant.email p = email ∧
    Participant.activity_id p = Activity.id a ∧
    (Participant.id p ∉ Participant.id <$> participant_table db) ∧
    activity_table db' = activity_table db ∧
    participant_table db' = participant_table db ++ [p] ∧
    roster a db' = roster a db ++ [p] ∧
    length (roster a db') = S (length (roster a db)) ∧
    request get_activities db' = (OK listing, db') ∧
    listing !! activity_name = Some info ∧
    email ∈ info_participants info.
Proof.
  intros Hnames Hact Hnew Hroom.
  pose (p := Participant.Build
               (next_rowid (Participant.id <$> participant_table db))
               email (Activity.id a)).
  pose (db' := MkDB (activity_table db) (participant_table db ++ [p])).
  assert (roster a db' = roster a db ++ [p]) as Hroster.
  { unfold db'. rewrite roster_add. by rewrite decide_True. }
  destruct (activity_named_Some _ _ _ Hact) as [Hin Hname].
  destruct (get_activities_entry db' a) as (listing & Hlist & Hentry); [done..|].
  exists p, db', listing, (activity_info db' a).
  split_and!; try done.
  - rewrite signup_cases, Hact.
    apply any_email_false in Hnew. rewrite Hnew.
    by rewrite bool_decide_eq_false_2 by lia.
  - apply next_rowid_fresh.
  - rewrite Hroster, length_app. simpl. lia.
  - by rewrite <-Hname.
  - simpl. fold (roster a db'). rewrite Hroster, fmap_app.
    apply elem_of_app. right. simpl. left.
Qed.

Lemma signup_success_witness :
  ∃ p db' listing info,
    request (signup_for_activity "Chess Club" "zoe@mergington.edu") initial_db =
      (OK {[ "message" := "Signed up " +:+ "zoe@mergington.edu" +:+ " for " +:+ "Chess Club" ]}, db') ∧
    Participant.email p = "zoe@mergington.edu" ∧
    Participant.activity_id p = Activity.id chess_club ∧
    (Participant.id p ∉ Participant.id <$> participant_table initial_db) ∧
    activity_table db' = activity_table initial_db ∧
    participant_table db' = participant_table initial_db ++ [p] ∧
    roster chess_club db' = roster chess_club initial_db ++ [p] ∧
    length (roster chess_club db') = S (length (roster chess_club initial_db)) ∧
    request get_activities db' = (OK listing, db') ∧
    listing !! "Chess Club" = Some info ∧
    "zoe@mergington.edu" ∈ info_participants info.
Proof.
  apply (signup_success initial_db "Chess Club" "zoe@mergington.edu" chess_club).
  - by_computation.
  - by vm_compute.
  - by_computation.
  - by vm_compute.
Defined.

(** C2: when the named activity exists and the email is already on its
    roster, signup fails with status 400 and the database is the one it
    started from; and whatever a first signup did, repeating it with the
    same name and email fails with status 400 and leaves the database as
    the first call left it, with the duplicate detail whenever the first
    call succeeded. *)
Theorem signup_duplicate db activity_name email a :
  activity_named activity_name db = Some a →
  (email ∈ roster_emails a db →
   request (signup_for_activity activity_name email) db =
     (HTTPError (MkHTTPException 400 "Student is already signed up"), db)) ∧
  (∀ outcome db1,
     request (signup_for_activity activity_name email) db = (outcome, db1) →
     ∃ exc,
       request (signup_for_activity activity_name email) db1 = (HTTPError exc, db1) ∧
       status_code exc = 400%Z ∧
       (∀ body, outcome = OK body → detail exc = "Student is already signed up")).
Proof.
  intros Hact.
  assert (∀ d, email ∈ roster_emails a d → activity_named activity_name d = Some a →
            request (signup_for_activity activity_name email) d =
              (HTTPError (MkHTTPException 400 "Student is already signed up"), d))
    as Hdup.
  { intros d Hin Hd. rewrite signup_cases, Hd.
    apply any_email in Hin. by rewrite Hin. }
  split; [intros Hin; by apply Hdup|].
  intros outcome db1. rewrite signup_cases, Hact.
  destruct (existsb _ _) eqn:Hany.
  { intros [= <- <-]. eexists.
    split; [apply Hdup; [by apply any_email|done]|done]. }
  case_bool_decide as Hfull.
  { intros [= <- <-]. eexists. rewrite signup_cases, Hact, Hany.
    by rewrite bool_decide_eq_true_2. }
  intros [= <- <-]. eexists. split; [apply Hdup; [|done]|done].
  unfold roster_emails. rewrite roster_add, decide_True by done.
  rewrite fmap_app. apply elem_of_app. right. simpl. left.
Qed.

Lemma signup_duplicate_witness :
  ("michael@mergington.edu" ∈ roster_emails chess_club initial_db →
   request (signup_for_activity "Chess Club" "michael@mergington.edu") initial_db =
     (HTTPError (MkHTTPException 400 "Student is already signed up"), initial_db)) ∧
  (∀ outcome db1,
     request (signup_for_activity "Chess Club" "michael@mergington.edu") initial_db
       = (outcome, db1) →
     ∃ exc,
       request (signup_for_activity "Chess Club" "michael@mergington.edu") db1
         = (HTTPError exc, db1) ∧
       status_code exc = 400%Z ∧
       (∀ body, outcome = OK body → detail exc = "Student is already signed up")).
Proof.
  apply (signup_duplicate initial_db "Chess Club" "michael@mergington.edu" chess_club).
  by vm_compute.
Defined.

(** C3: when the named activity exists, the email is not on its roster and
    the roster size equals [max_participants], signup fails with status 400
    and the database is unchanged, so no participant is added. *)
Theorem signup_full db activity_name email a :
  activity_named activity_name db = Some a →
  email ∉ roster_emails a db →
  Z.of_nat (length (roster a db)) = Activity.max_participants a →
  request (signup_for_activity activity_name email) db =
    (HTTPError (MkHTTPException 400 "Activity is full"), db).
Proof.
  intros Hact Hnew Hfull. rewrite signup_cases, Hact.
  apply any_email_false in Hnew. rewrite Hnew.
  by rewrite bool_decide_eq_true_2 by lia.
Qed.

Lemma signup_full_witness :
  request (signup_for_activity "Duo" "zoe@mergington.edu") full_db =
    (HTTPError (MkHTTPException 400 "Activity is full"), full_db).
Proof.
  apply (signup_full full_db "Duo" "zoe@mergington.edu" duo).
  - by vm_compute.
  - by_computation.
  - by vm_compute.
Defined.

(** ** Unregistering *)

Lemma select_participant_by_email_elem db a email p :
  p ∈ select_participant_by_email (Activity.id a) email db ↔
  p ∈ roster a db ∧ Participant.email p = email.
Proof.
  unfold select_participant_by_email. rewrite list_elem_of_filter. tauto.
Qed.

Lemma first_participant db a email p :
  first (select_participant_by_email (Activity.id a) email db) = Some p →
  Participant.email p = email ∧
  Participant.activity_id p = Activity.id a ∧
  ∃ before after,
    participant_table db = before ++ p :: after ∧
    Forall (λ q, ¬ (Participant.email q = email ∧
                    Participant.activity_id q = Activity.id a)) before.
Proof.
  unfold first, select_participant_by_email, select_participants.
  rewrite list_filter_filter. intros Hhd.
  pose proof (head_Some_elem_of _ _ Hhd) as [[Hemail Hid] _]%list_elem_of_filter.
  apply head_filter_Some in Hhd as (before & after & Htable & Hbefore).
  split_and!; [done..|]. by exists before, after.
Qed.

(** C4: when a stored activity carries the requested name and exactly one
    Participant row carries that activity's id and the email, unregister
    answers with the confirmation message and removes that row and no
    other: the participant table and the roster of that activity keep all
    their other rows in place, the roster is one shorter and no longer
    lists the email, and the Activity table is untouched. *)
Theorem unregister_success db activity_name email a :
  activity_name_unique db →
  participant_pk db →
  a ∈ activity_table db →
  Activity.name a = activity_name →
  length (select_participant_by_email (Activity.id a) email db) = 1 →
  ∃ p before after others_before others_after db',
    request (unregister_from_activity activity_name email) db =
      (OK {[ "message" := "Unregistered " +:+ email +:+ " from " +:+ activity_name ]}, db') ∧
    Participant.email p = email ∧
    Participant.activity_id p = Activity.id a ∧
    participant_table db = before ++ p :: after ∧
    participant_table db' = before ++ after ∧
    activity_table db' = activity_table db ∧
    roster a db = others_before ++ p :: others_after ∧
    roster a db' = others_before ++ others_after ∧
    S (length (roster a db')) = length (roster a db) ∧
    email ∉ roster_emails a db'.
Proof.
  intros Hnames Hpk Hstored Hname Hone.
  assert (activity_named activity_name db = Some a) as Hact
    by (by apply activity_named_unique).
  clear Hnames Hstored Hname.
  destruct (first (select_participant_by_email (Activity.id a) email db))
    as [p|] eqn:Hfirst; last first.
  { apply head_None in Hfirst. by rewrite Hfirst in Hone. }
  destruct (first_participant _ _ _ _ Hfirst)
    as (Hemail & Hid & before & after & Htable & Hbefore).
  pose (db' := MkDB (activity_table db) (before ++ after)).
  assert (roster a db = roster a (MkDB [] before) ++ p :: roster a (MkDB [] after))
    as Hroster.
  { unfold roster, select_participants. simpl.
    by rewrite Htable, filter_app, filter_cons_True. }
  assert (roster a db' = roster a (MkDB [] before) ++ roster a (MkDB [] after))
    as Hroster'.
  { unfold roster, select_participants. simpl. by rewrite filter_app. }
  exists p, before, after, (roster a (MkDB [] before)), (roster a (MkDB [] after)), db'.
  split_and!; try done.
  - rewrite unregister_cases, Hact, Hfirst. do 2 f_equal.
    unfold db'. f_equal. rewrite Htable. apply (delete_by_key Participant.id).
    by rewrite <-Htable.
  - rewrite Hroster, Hroster', !length_app. simpl. lia.
  - unfold first, select_participant_by_email in Hfirst, Hone.
    fold (roster a db) in Hfirst, Hone.
    unfold roster_emails. rewrite Hroster'.
    rewrite Hroster, filter_app, filter_cons_True, length_app in Hone by done.
    simpl in Hone.
    assert (filter (λ q, Participant.email q = email) (roster a (MkDB [] before)) = []
            ∧ filter (λ q, Participant.email q = email) (roster a (MkDB [] after)) = [])
      as [Hb Ha].
    { split; apply length_zero_iff_nil; lia. }
    intros (q & Hq & [Hin|Hin]%elem_of_app)%list_elem_of_fmap.
    + by eapply (filter_nil_not_elem_of _ _ q Hb).
    + by eapply (filter_nil_not_elem_of _ _ q Ha).
Qed.

Lemma unregister_success_witness :
  ∃ p before after others_before others_after db',
    request (unregister_from_activity "Math Club" "benjamin@mergington.edu") initial_db =
      (OK {[ "message" := "Unregistered " +:+ "benjamin@mergington.edu" +:+ " from " +:+ "Math Club" ]}, db') ∧
    Participant.email p = "benjamin@mergington.edu" ∧
    Participant.activity_id p = Activity.id math_club ∧
    participant_table initial_db = before ++ p :: after ∧
    participant_table db' = before ++ after ∧
    activity_table db' = activity_table initial_db ∧
    roster math_club initial_db = others_before ++ p :: others_after ∧
    roster math_club db' = others_before ++ others_after ∧
    S (length (roster math_club db')) = length (roster math_club initial_db) ∧
    "benjamin@mergington.edu" ∉ roster_emails math_club db'.
Proof.
  apply (unregister_success initial_db "Math Club" "benjamin@mergington.edu" math_club).
  - by_computation.
  - by_computation.
  - by_computation.
  - reflexivity.
  - by vm_compute.
Defined.

(** C5: when the named activity exists and no Participant row carries its
    id together with the email, unregister fails with status 400 and the
    database is unchanged. *)
Theorem unregister_not_signed_up db activity_name email a :
  activity_named activity_name db = Some a →
  email ∉ roster_emails a db →
  request (unregister_from_activity activity_name email) db =
    (HTTPError (MkHTTPException 400 "Student is not signed up for this activity"), db).
Proof.
  intros Hact Hnot. rewrite unregister_cases, Hact.
  destruct (first _) as [p|] eqn:Hfirst; [|done].
  apply head_Some_elem_of, select_participant_by_email_elem in Hfirst as [Hin <-].
  destruct Hnot. by apply list_elem_of_fmap_2.
Qed.

Lemma unregister_not_signed_up_witness :
  request (unregister_from_activity "Chess Club" "zoe@mergington.edu") initial_db =
    (HTTPError (MkHTTPException 400 "Student is not signed up for this activity"),
     initial_db).
Proof.
  apply (unregister_not_signed_up initial_db "Chess Club" "zoe@mergington.edu" chess_club).
  - by vm_compute.
  - by_computation.
Defined.

(** C6: when no activity carries the name, signup and unregister both fail
    with status 404, whatever the email, and the database is unchanged. *)
Theorem unknown_activity_not_found db activity_name email :
  activity_name ∉ Activity.name <$> activity_table db →
  request (signup_for_activity activity_name email) db =
    (HTTPError (MkHTTPException 404 "Activity not found"), db) ∧
  request (unregister_from_activity activity_name email) db =
    (HTTPError (MkHTTPException 404 "Activity not found"), db).
Proof.
  intros Hnone%activity_named_None.
  by rewrite signup_cases, unregister_cases, Hnone.
Qed.

Lemma unknown_activity_not_found_witness :
  request (signup_for_activity "Knitting Circle" "zoe@mergington.edu") initial_db =
    (HTTPError (MkHTTPException 404 "Activity not found"), initial_db) ∧
  request (unregister_from_activity "Knitting Circle" "zoe@mergington.edu") initial_db =
    (HTTPError (MkHTTPException 404 "Activity not found"), initial_db).
Proof.
  apply (unknown_activity_not_found initial_db "Knitting Circle" "zoe@mergington.edu").
  by_computation.
Defined.

(** ** Seeding *)

Lemma no_activity_no_participant db :
  participant_fk db → activity_table db = [] → db = empty_db.
Proof.
  destruct db as [acts parts]. unfold participant_fk. simpl.
  intros Hfk ->. destruct parts as [|p parts]; [done|].
  apply Forall_cons in Hfk as [Hp _]. by apply elem_of_nil in Hp.
Qed.

Lemma seeded_entries_keys : NoDup seeded_entries.*1.
Proof. by_computation. Qed.

(** C7: on a database with no Activity row, seeding stores exactly the
    nine sample activities, each with its two sample emails as roster, and
    the listing that follows holds exactly the nine sample entries: name
    mapped to description, schedule, capacity and emails. On a database
    that has an Activity row, seeding changes nothing. *)
Theorem seed_data_populates db :
  participant_fk db →
  (activity_table db = [] →
   ∃ db' listing,
     request seed_data db = (OK (), db') ∧
     as_sample db' <$> activity_table db' = samples ∧
     length samples = 9 ∧
     Forall (λ s, length s.2 = 2) samples ∧
     request get_activities db' = (OK listing, db') ∧
     listing = list_to_map seeded_entries ∧
     map_to_list listing ≡ₚ seeded_entries) ∧
  (activity_table db ≠ [] → request seed_data db = (OK (), db)).
Proof.
  intros Hfk. split.
  - intros Hempty. rewrite (no_activity_no_participant db) by done.
    exists initial_db, (list_to_map seeded_entries).
    split_and!; try (by vm_compute).
    + by_computation.
    + apply map_to_list_to_map, seeded_entries_keys.
  - unfold request, seed_data, exec, mbind, mret, session_bind, session_ret.
    by destruct (activity_table db).
Qed.

Lemma seed_data_populates_witness :
  (activity_table empty_db = [] →
   ∃ db' listing,
     request seed_data empty_db = (OK (), db') ∧
     as_sample db' <$> activity_table db' = samples ∧
     length samples = 9 ∧
     Forall (λ s, length s.2 = 2) samples ∧
     request get_activities db' = (OK listing, db') ∧
     listing = list_to_map seeded_entries ∧
     map_to_list listing ≡ₚ seeded_entries) ∧
  (activity_table empty_db ≠ [] → request seed_data empty_db = (OK (), empty_db)).
Proof.
  apply (seed_data_populates empty_db). by_computation.
Defined.

(** ** What every operation preserves *)

Lemma step_activity_table op db :
  activity_table (step op db) = activity_table db.
Proof.
  destruct op as [|n e|n e]; simpl.
  - done.
  - rewrite signup_cases. by repeat case_match.
  - rewrite unregister_cases. by repeat case_match.
Qed.

Lemma step_participant_pk op db :
  participant_pk db → participant_pk (step op db).
Proof.
  unfold participant_pk. intros Hpk. destruct op as [|n e|n e]; simpl.
  - done.
  - rewrite signup_cases. repeat case_match; try done. simpl.
    rewrite fmap_app. apply NoDup_app. split_and!; [done| |apply NoDup_singleton].
    intros i Hi ->%list_elem_of_singleton. by apply next_rowid_fresh in Hi.
  - rewrite unregister_cases. repeat case_match; try done. simpl.
    by apply NoDup_key_filter.
Qed.

Lemma step_participant_fk op db :
  participant_fk db → participant_fk (step op db).
Proof.
  unfold participant_fk. intros Hfk. destruct op as [|n e|n e]; simpl.
  - done.
  - rewrite signup_cases.
    destruct (activity_named n db) as [a|] eqn:Hact; [|done].
    repeat case_match; try done. simpl.
    apply Forall_app. split; [done|]. apply Forall_singleton. simpl.
    apply list_elem_of_fmap_2. by apply (activity_named_Some n).
  - rewrite unregister_cases. repeat case_match; try done. simpl.
    by apply Forall_filter_keep.
Qed.

Lemma step_enrollment_unique op db :
  enrollment_unique db → enrollment_unique (step op db).
Proof.
  unfold enrollment_unique. intros Huniq. destruct op as [|n e|n e]; simpl.
  - done.
  - rewrite signup_cases.
    destruct (activity_named n db) as [a|] eqn:Hact; [|done].
    destruct (existsb _ _) eqn:Hany; [done|].
    case_bool_decide; [done|]. simpl.
    rewrite fmap_app. apply NoDup_app. split_and!; [done| |apply NoDup_singleton].
    intros pair (q & -> & Hq)%list_elem_of_fmap [= Hid Hemail]%list_elem_of_singleton.
    apply any_email_false in Hany. apply Hany.
    rewrite <-Hemail. apply list_elem_of_fmap_2.
    by apply list_elem_of_filter.
  - rewrite unregister_cases. repeat case_match; try done. simpl.
    by apply NoDup_key_filter.
Qed.

Lemma step_within_capacity op db :
  activity_pk db → within_capacity db → within_capacity (step op db).
Proof.
  unfold within_capacity. intros Hpk Hcap.
  rewrite step_activity_table. destruct op as [|n e|n e]; simpl.
  - done.
  - rewrite signup_cases.
    destruct (activity_named n db) as [a|] eqn:Hact; [|done].
    destruct (existsb _ _); [done|].
    case_bool_decide as Hfull; [done|]. simpl.
    destruct (activity_named_Some _ _ _ Hact) as [Ha _].
    rewrite Forall_forall in Hcap. apply Forall_forall. intros b Hb.
    rewrite roster_add. simpl. case_decide as Hid.
    + assert (a = b) as <- by (by apply (key_inj Activity.id (activity_table db))).
      rewrite length_app. simpl. lia.
    + rewrite app_nil_r. by apply Hcap.
  - rewrite unregister_cases. repeat case_match; try done. simpl.
    eapply Forall_impl; [exact Hcap|]. intros b Hb. simpl in Hb.
    unfold roster, select_participants in *. simpl.
    etrans; [|exact Hb]. apply Nat2Z.inj_le, length_filter_after.
Qed.

(** ** Reachable states *)

Lemma reachable_activity_table db :
  reachable db → activity_table db = activity_table initial_db.
Proof.
  induction 1 as [|op db _ IH]; [done|]. by rewrite step_activity_table.
Qed.

Lemma initial_data_model :
  activity_pk initial_db ∧ participant_pk initial_db ∧
  activity_name_unique initial_db ∧ participant_fk initial_db.
Proof. split_and!; by_computation. Qed.

(** The constraints of the data model hold in every reachable state. *)
Lemma reachable_data_model db :
  reachable db →
  activity_pk db ∧ participant_pk db ∧ activity_name_unique db ∧ participant_fk db.
Proof.
  induction 1 as [|op db Hreach (Hapk & Hppk & Hname & Hfk)];
    [apply initial_data_model|].
  unfold activity_pk, activity_name_unique in *.
  rewrite step_activity_table.
  split_and!; [done|by apply step_participant_pk|done|by apply step_participant_fk].
Qed.

Lemma roster_emails_NoDup db a :
  enrollment_unique db → NoDup (roster_emails a db).
Proof.
  unfold enrollment_unique, roster_emails, roster, select_participants.
  intros Huniq. apply NoDup_fmap_2_strong.
  - intros p q [Hp Hpin]%list_elem_of_filter [Hq Hqin]%list_elem_of_filter Hemail.
    apply (key_inj _ _ _ _ Huniq Hpin Hqin). by rewrite Hp, Hq, Hemail.
  - apply NoDup_filter. by apply NoDup_fmap_1 in Huniq.
Qed.

(** C8: in every state reachable from the seeded initial state by list,
    signup and unregister operations, no two Participant rows share their
    (activity_id, email) pair, so no roster lists an email twice. *)
Theorem reachable_enrollment_unique db :
  reachable db →
  NoDup ((λ p, (Participant.activity_id p, Participant.email p))
           <$> participant_table db) ∧
  ∀ a, NoDup (roster_emails a db).
Proof.
  intros Hreach.
  assert (enrollment_unique db) as Huniq.
  { induction Hreach as [|op db _ IH].
    - by_computation.
    - by apply step_enrollment_unique. }
  split; [done|]. intros a. by apply roster_emails_NoDup.
Qed.

Lemma reachable_enrollment_unique_witness :
  NoDup ((λ p, (Participant.activity_id p, Participant.email p))
           <$> participant_table
                 (step (SignUp "Chess Club" "zoe@mergington.edu") initial_db)) ∧
  ∀ a, NoDup (roster_emails a
                (step (SignUp "Chess Club" "zoe@mergington.edu") initial_db)).
Proof.
  apply (reachable_enrollment_unique
           (step (SignUp "Chess Club" "zoe@mergington.edu") initial_db)).
  apply reachable_step, reachable_init.
Defined.

(** C9: in every state reachable from the seeded initial state by list,
    signup and unregister operations, the roster of every activity has at
    most [max_participants] rows. *)
Theorem reachable_within_capacity db :
  reachable db →
  Forall (λ a, (Z.of_nat (length (roster a db)) ≤ Activity.max_participants a)%Z)
         (activity_table db).
Proof.
  induction 1 as [|op db Hreach IH].
  - by_computation.
  - apply step_within_capacity; [|done].
    by apply reachable_data_model in Hreach as [? _].
Qed.

Lemma reachable_within_capacity_witness :
  Forall (λ a, (Z.of_nat
                  (length (roster a (step (Unregister "Math Club" "james@mergington.edu")
                                          initial_db)))
                ≤ Activity.max_participants a)%Z)
         (activity_table (step (Unregister "Math Club" "james@mergington.edu")
                               initial_db)).
Proof.
  apply (reachable_within_capacity
           (step (Unregister "Math Club" "james@mergington.edu") initial_db)).
  apply reachable_step, reachable_init.
Defined.

(** ** Frame *)

(** C10: signup and unregister, whether they succeed or fail, leave the
    Activity table as it was and leave the roster of every activity whose
    name is not the requested one as it was. *)
Theorem handlers_frame db activity_name email :
  activity_pk db →
  participant_pk db →
  Forall (λ db',
            activity_table db' = activity_table db ∧
            ∀ b, b ∈ activity_table db →
                 Activity.name b ≠ activity_name →
                 roster b db' = roster b db)
         [ (request (signup_for_activity activity_name email) db).2;
           (request (unregister_from_activity activity_name email) db).2 ].
Proof.
  intros Hapk Hppk. apply Forall_forall. intros db' Hdb'.
  assert (db' = (request (signup_for_activity activity_name email) db).2 ∨
          db' = (request (unregister_from_activity activity_name email) db).2)
    as Hcases.
  { apply elem_of_cons in Hdb' as [->|Hdb']; [by left|].
    apply list_elem_of_singleton in Hdb'. by right. }
  clear Hdb'. rename Hcases into Hdb'. split.
  { destruct Hdb' as [-> | ->].
    - apply (step_activity_table (SignUp activity_name email)).
    - apply (step_activity_table (Unregister activity_name email)). }
  intros b Hb Hname.
  destruct (activity_named activity_name db) as [a|] eqn:Hact; last first.
  { destruct Hdb' as [-> | ->];
      [rewrite signup_cases | rewrite unregister_cases]; by rewrite Hact. }
  destruct (activity_named_Some _ _ _ Hact) as [Ha Hn].
  assert (Activity.id a ≠ Activity.id b) as Hid.
  { intros Hid. apply Hname. rewrite <-Hn. f_equal. symmetry.
    by apply (key_inj Activity.id (activity_table db)). }
  destruct Hdb' as [-> | ->].
  - rewrite signup_cases, Hact. repeat case_match; try done. simpl.
    rewrite roster_add. simpl. rewrite decide_False by done. apply app_nil_r.
  - rewrite unregister_cases, Hact.
    destruct (first _) as [p|] eqn:Hfirst; [|done]. simpl.
    destruct (first_participant _ _ _ _ Hfirst)
      as (_ & Hpid & before & after & Htable & _).
    unfold roster, select_participants. simpl.
    rewrite list_filter_filter. apply filter_agree. intros q Hq.
    split; [by intros [? _]|]. intros Hqb. split; [done|].
    intros Hqp. apply Hid. rewrite <-Hpid, <-Hqb. f_equal. symmetry.
    apply (key_inj Participant.id (participant_table db)); try done.
    rewrite Htable. apply elem_of_app. right. left.
Qed.

Lemma handlers_frame_witness :
  Forall (λ db',
            activity_table db' = activity_table initial_db ∧
            ∀ b, b ∈ activity_table initial_db →
                 Activity.name b ≠ "Chess Club" →
                 roster b db' = roster b initial_db)
         [ (request (signup_for_activity "Chess Club" "zoe@mergington.edu")
                    initial_db).2;
           (request (unregister_from_activity "Chess Club" "zoe@mergington.edu")
                    initial_db).2 ].
Proof.
  apply (handlers_frame initial_db "Chess Club" "zoe@mergington.edu");
    by_computation.
Defined.

(** * Further properties of the handlers *)

(** ** Outcomes of signup and unregister *)

(** X1: signup answers 200 exactly when the named activity exists, the
    email is not on its roster and the roster is below capacity. *)
Theorem signup_succeeds_iff db activity_name email :
  (∃ body db', request (signup_for_activity activity_name email) db = (OK body, db')) ↔
  ∃ a, activity_named activity_name db = Some a ∧
       (email ∉ roster_emails a db) ∧
       (Z.of_nat (length (roster a db)) < Activity.max_participants a)%Z.
Proof.
  rewrite signup_cases. unfold roster_emails.
  destruct (activity_named activity_name db) as [a|]; last first.
  { split; [by intros (? & ? & ?)|by intros (? & ? & _)]. }
  destruct (existsb _ _) eqn:Hany.
  { apply any_email in Hany. split; [by intros (? & ? & ?)|].
    by intros (? & [= <-] & ? & _). }
  apply any_email_false in Hany. case_bool_decide as Hfull.
  - split; [by intros (? & ? & ?)|]. intros (? & [= <-] & _ & ?). lia.
  - split; [|by eauto]. intros _. exists a. split_and!; [done..|lia].
Qed.

(** X2: a rejected signup leaves the database as it was and is one of
    three: 404 when no activity has the name; 400 "already signed up" when
    the email is on the roster, whether or not the roster is full; 400
    "full" when the email is not on the roster and the roster has reached
    or passed the capacity. *)
Theorem signup_rejections db activity_name email exc db' :
  request (signup_for_activity activity_name email) db = (HTTPError exc, db') →
  db' = db ∧
  ((exc = MkHTTPException 404 "Activity not found" ∧
    activity_name ∉ Activity.name <$> activity_table db) ∨
   (exc = MkHTTPException 400 "Student is already signed up" ∧
    ∃ a, activity_named activity_name db = Some a ∧ email ∈ roster_emails a db) ∨
   (exc = MkHTTPException 400 "Activity is full" ∧
    ∃ a, activity_named activity_name db = Some a ∧
         (email ∉ roster_emails a db) ∧
         (Activity.max_participants a ≤ Z.of_nat (length (roster a db)))%Z)).
Proof.
  rewrite signup_cases. unfold roster_emails.
  destruct (activity_named activity_name db) as [a|] eqn:Hact.
  - destruct (existsb _ _) eqn:Hany.
    { intros [= <- <-]. split; [done|]. right. left. split; [done|].
      exists a. split; [done|]. by apply any_email. }
    apply any_email_false in Hany. case_bool_decide as Hfull; [|done].
    intros [= <- <-]. split; [done|]. right. right. split; [done|].
    exists a. split_and!; [done..|lia].
  - intros [= <- <-]. split; [done|]. left. split; [done|].
    by apply activity_named_None.
Qed.

Lemma signup_rejections_witness :
  full_db = full_db ∧
  ((MkHTTPException 400 "Student is already signed up"
      = MkHTTPException 404 "Activity not found" ∧
    "Duo" ∉ Activity.name <$> activity_table full_db) ∨
   (MkHTTPException 400 "Student is already signed up"
      = MkHTTPException 400 "Student is already signed up" ∧
    ∃ a, activity_named "Duo" full_db = Some a ∧
         "michael@mergington.edu" ∈ roster_emails a full_db) ∨
   (MkHTTPException 400 "Student is already signed up"
      = MkHTTPException 400 "Activity is full" ∧
    ∃ a, activity_named "Duo" full_db = Some a ∧
         ("michael@mergington.edu" ∉ roster_emails a full_db) ∧
         (Activity.max_participants a ≤ Z.of_nat (length (roster a full_db)))%Z)).
Proof.
  apply (signup_rejections full_db "Duo" "michael@mergington.edu").
  by vm_compute.
Defined.

(** X3: unregister answers 200 exactly when the named activity exists and
    the email is on its roster; capacity plays no part. *)
Theorem unregister_succeeds_iff db activity_name email :
  (∃ body db',
     request (unregister_from_activity activity_name email) db = (OK body, db')) ↔
  ∃ a, activity_named activity_name db = Some a ∧ email ∈ roster_emails a db.
Proof.
  rewrite unregister_cases. unfold roster_emails.
  destruct (activity_named activity_name db) as [a|]; last first.
  { split; [by intros (? & ? & ?)|by intros (? & ? & _)]. }
  destruct (first _) as [p|] eqn:Hfirst.
  - split; [|by eauto]. intros _. exists a. split; [done|].
    apply head_Some_elem_of, select_participant_by_email_elem in Hfirst
      as [Hin <-].
    by apply list_elem_of_fmap_2.
  - split; [by intros (? & ? & ?)|].
    intros (? & [= <-] & (p & -> & Hp)%list_elem_of_fmap).
    apply head_None in Hfirst.
    assert (p ∈ select_participant_by_email (Activity.id a) (Participant.email p) db)
      as Hin by (by apply select_participant_by_email_elem).
    rewrite Hfirst in Hin. by apply elem_of_nil in Hin.
Qed.

(** ** Round trips *)

Lemma activity_named_same_table activity_name db db' :
  activity_table db' = activity_table db →
  activity_named activity_name db' = activity_named activity_name db.
Proof.
  unfold activity_named, select_activity_by_name. by intros ->.
Qed.

(** X4: unregistering right after a successful signup, with the same name
    and email, succeeds and gives back exactly the database the signup
    started from. *)
Theorem signup_then_unregister db activity_name email body db1 :
  request (signup_for_activity activity_name email) db = (OK body, db1) →
  request (unregister_from_activity activity_name email) db1 =
    (OK {[ "message" := "Unregistered " +:+ email +:+ " from " +:+ activity_name ]}, db).
Proof.
  rewrite signup_cases.
  destruct (activity_named activity_name db) as [a|] eqn:Hact; [|done].
  destruct (existsb _ _) eqn:Hany; [done|].
  case_bool_decide; [done|]. intros [= _ <-].
  set (p := Participant.Build _ email (Activity.id a)).
  rewrite unregister_cases, (activity_named_same_table _ db) by done.
  rewrite Hact.
  assert (filter (λ q, Participant.email q = email) (roster a db) = []) as Hnone.
  { apply any_email_false in Hany.
    destruct (filter _ _) as [|q rest] eqn:Hsel; [done|].
    assert (q ∈ filter (λ q, Participant.email q = email) (roster a db))
      as [Hq Hin]%list_elem_of_filter by (rewrite Hsel; left).
    destruct Hany. rewrite <-Hq. by apply list_elem_of_fmap_2. }
  unfold select_participant_by_email.
  fold (roster a (MkDB (activity_table db) (participant_table db ++ [p]))).
  rewrite roster_add, decide_True, filter_app, Hnone by done.
  rewrite filter_cons_True by done. simpl.
  rewrite filter_app, filter_cons_False, filter_nil, app_nil_r
    by (intros Hne; by apply Hne).
  rewrite filter_all; [by destruct db|].
  apply Forall_forall. intros q Hq Heq.
  apply (next_rowid_fresh (Participant.id <$> participant_table db)).
  simpl in Heq. rewrite <-Heq. by apply list_elem_of_fmap_2.
Qed.

Lemma signup_then_unregister_witness :
  request (unregister_from_activity "Chess Club" "zoe@mergington.edu")
          (step (SignUp "Chess Club" "zoe@mergington.edu") initial_db) =
    (OK {[ "message" := "Unregistered " +:+ "zoe@mergington.edu" +:+ " from "
                        +:+ "Chess Club" ]}, initial_db).
Proof.
  apply (signup_then_unregister initial_db "Chess Club" "zoe@mergington.edu"
           {[ "message" := "Signed up zoe@mergington.edu for Chess Club" ]}).
  by vm_compute.
Defined.

Lemma reachable_invariants db :
  reachable db →
  participant_pk db ∧ enrollment_unique db ∧ within_capacity db.
Proof.
  induction 1 as [|op db Hreach (Hpk & Huniq & Hcap)].
  - split_and!; by_computation.
  - split_and!.
    + by apply step_participant_pk.
    + by apply step_enrollment_unique.
    + apply step_within_capacity; [|done].
      by apply reachable_data_model in Hreach as [? _].
Qed.

Lemma unregister_ok_shape db activity_name email a body db1 :
  participant_pk db →
  activity_named activity_name db = Some a →
  request (unregister_from_activity activity_name email) db = (OK body, db1) →
  ∃ p before after,
    Participant.email p = email ∧
    Participant.activity_id p = Activity.id a ∧
    participant_table db = before ++ p :: after ∧
    db1 = MkDB (activity_table db) (before ++ after).
Proof.
  intros Hpk Hact. rewrite unregister_cases, Hact.
  destruct (first _) as [p|] eqn:Hfirst; [|done]. intros [= _ <-].
  destruct (first_participant _ _ _ _ Hfirst)
    as (Hemail & Hid & before & after & Htable & _).
  exists p, before, after. split_and!; [done..|].
  f_equal. rewrite Htable. apply (delete_by_key Participant.id).
  by rewrite <-Htable.
Qed.

Lemma roster_split b acts (before after : list Participant.t) p :
  roster b (MkDB acts (before ++ p :: after)) =
    roster b (MkDB acts before) ++
    (if decide (Participant.activity_id p = Activity.id b) then [p] else []) ++
    roster b (MkDB acts after).
Proof.
  unfold roster, select_participants. simpl.
  rewrite filter_app, filter_cons. by case_decide.
Qed.

Lemma roster_join a acts (before after : list Participant.t) :
  roster a (MkDB acts (before ++ after)) =
    roster a (MkDB acts before) ++ roster a (MkDB acts after).
Proof. unfold roster, select_participants. simpl. by rewrite filter_app. Qed.

Lemma unregister_clears_email db activity_name email a body db1 :
  participant_pk db →
  enrollment_unique db →
  activity_named activity_name db = Some a →
  request (unregister_from_activity activity_name email) db = (OK body, db1) →
  (email ∉ roster_emails a db1) ∧
  S (length (roster a db1)) = length (roster a db).
Proof.
  intros Hpk Huniq Hact Hreq.
  destruct (unregister_ok_shape _ _ _ _ _ _ Hpk Hact Hreq)
    as (p & before & after & Hemail & Hid & Htable & ->).
  pose proof (roster_emails_NoDup db a Huniq) as Hnodup.
  unfold roster_emails in *. destruct db as [acts parts]. simpl in *. subst parts.
  rewrite roster_split, decide_True in * by done. rewrite roster_join.
  simpl in Hnodup. rewrite fmap_app, fmap_cons, Hemail in Hnodup.
  apply NoDup_app in Hnodup as (_ & Hbefore & [Hafter _]%NoDup_cons).
  split.
  - rewrite fmap_app. intros [Hin|Hin]%elem_of_app; [|done].
    apply (Hbefore _ Hin). left.
  - rewrite !length_app. simpl. lia.
Qed.

(** X5: in a reachable state, after a successful unregister the same
    student can sign up for the same activity again: the signup succeeds,
    and every roster then lists the same emails as before the unregister,
    up to order. *)
Theorem unregister_then_signup db activity_name email body db1 :
  reachable db →
  request (unregister_from_activity activity_name email) db = (OK body, db1) →
  ∃ db2,
    request (signup_for_activity activity_name email) db1 =
      (OK {[ "message" := "Signed up " +:+ email +:+ " for " +:+ activity_name ]}, db2) ∧
    ∀ b, roster_emails b db2 ≡ₚ roster_emails b db.
Proof.
  intros (Hpk & Huniq & Hcap)%reachable_invariants Hreq.
  destruct (activity_named activity_name db) as [a|] eqn:Hact; last first.
  { by rewrite unregister_cases, Hact in Hreq. }
  destruct (unregister_clears_email _ _ _ _ _ _ Hpk Huniq Hact Hreq) as [Hgone Hlen].
  destruct (unregister_ok_shape _ _ _ _ _ _ Hpk Hact Hreq)
    as (p & before & after & Hemail & Hid & Htable & Hdb1).
  assert (activity_named activity_name db1 = Some a) as Hact1.
  { rewrite <-Hact. apply activity_named_same_table. by rewrite Hdb1. }
  assert (Z.of_nat (length (roster a db)) ≤ Activity.max_participants a)%Z as Hroom.
  { unfold within_capacity in Hcap. rewrite Forall_forall in Hcap.
    by apply Hcap, (activity_named_Some activity_name). }
  eexists. split.
  - rewrite signup_cases, Hact1.
    apply any_email_false in Hgone. rewrite Hgone.
    by rewrite bool_decide_eq_false_2 by lia.
  - intros b. unfold roster_emails. rewrite roster_add. simpl.
    rewrite Hdb1. destruct db as [acts parts]. simpl in *. subst parts.
    rewrite roster_join, roster_split, Hid.
    destruct (decide (Activity.id a = Activity.id b)) as [Hab|Hab].
    + rewrite !fmap_app. simpl. rewrite Hemail.
      rewrite <-(assoc_L (++)). f_equiv. symmetry. apply Permutation_cons_append.
    + by rewrite app_nil_r, !fmap_app.
Qed.

Lemma unregister_then_signup_witness :
  ∃ db2,
    request (signup_for_activity "Chess Club" "daniel@mergington.edu")
            (step (Unregister "Chess Club" "daniel@mergington.edu") initial_db) =
      (OK {[ "message" := "Signed up " +:+ "daniel@mergington.edu" +:+ " for "
                          +:+ "Chess Club" ]}, db2) ∧
    ∀ b, roster_emails b db2 ≡ₚ roster_emails b initial_db.
Proof.
  apply (unregister_then_signup initial_db "Chess Club" "daniel@mergington.edu"
           {[ "message" := "Unregistered daniel@mergington.edu from Chess Club" ]}).
  - apply reachable_init.
  - by vm_compute.
Defined.

(** X6: in a reachable state, repeating a successful unregister fails
    with 400 "not signed up" and leaves the database as the first call
    left it. *)
Theorem unregister_twice db activity_name email body db1 :
  reachable db →
  request (unregister_from_activity activity_name email) db = (OK body, db1) →
  request (unregister_from_activity activity_name email) db1 =
    (HTTPError (MkHTTPException 400 "Student is not signed up for this activity"),
     db1).
Proof.
  intros (Hpk & Huniq & _)%reachable_invariants Hreq.
  destruct (activity_named activity_name db) as [a|] eqn:Hact; last first.
  { by rewrite unregister_cases, Hact in Hreq. }
  destruct (unregister_clears_email _ _ _ _ _ _ Hpk Huniq Hact Hreq) as [Hgone _].
  destruct (unregister_ok_shape _ _ _ _ _ _ Hpk Hact Hreq)
    as (p & before & after & _ & _ & _ & Hdb1).
  assert (activity_named activity_name db1 = Some a) as Hact1.
  { rewrite <-Hact. apply activity_named_same_table. by rewrite Hdb1. }
  rewrite unregister_cases, Hact1.
  destruct (first _) as [q|] eqn:Hfirst; [|done].
  apply head_Some_elem_of, select_participant_by_email_elem in Hfirst as [Hin <-].
  destruct Hgone. by apply list_elem_of_fmap_2.
Qed.

Lemma unregister_twice_witness :
  request (unregister_from_activity "Chess Club" "daniel@mergington.edu")
          (step (Unregister "Chess Club" "daniel@mergington.edu") initial_db) =
    (HTTPError (MkHTTPException 400 "Student is not signed up for this activity"),
     step (Unregister "Chess Club" "daniel@mergington.edu") initial_db).
Proof.
  apply (unregister_twice initial_db "Chess Club" "daniel@mergington.edu"
           {[ "message" := "Unregistered daniel@mergington.edu from Chess Club" ]}).
  - apply reachable_init.
  - by vm_compute.
Defined.

(** ** What the listing shows *)

Lemma listing_lookup db (acts : list Activity.t)
    (result : gmap string ActivityInfo) activity_name :
  foldl (λ result act, <[Activity.name act := activity_info db act]> result)
        result acts !! activity_name =
  match last (filter (λ a, Activity.name a = activity_name) acts) with
  | Some a => Some (activity_info db a)
  | None => result !! activity_name
  end.
Proof.
  revert result. induction acts as [|b acts IH]; intros result; [done|].
  simpl. rewrite IH, filter_cons. case_decide as Hname.
  - rewrite last_cons. destruct (last _); [done|].
    by rewrite <-Hname, lookup_insert_eq.
  - destruct (last _); [done|]. by rewrite lookup_insert_ne.
Qed.

Lemma get_activities_lookup db activity_name :
  ∃ listing,
    request get_activities db = (OK listing, db) ∧
    listing !! activity_name =
      activity_info db <$> last (select_activity_by_name activity_name db).
Proof.
  rewrite get_activities_cases. eexists. split; [done|].
  rewrite listing_lookup. unfold select_activity_by_name.
  by destruct (last _).
Qed.

(** X7: listing never fails and never writes; its keys are exactly the
    stored activity names, and the entry under a name is built from the
    last stored activity with that name, with the emails of the rows that
    carry that activity's id, in storage order. *)
Theorem get_activities_entries db :
  ∃ listing,
    request get_activities db = (OK listing, db) ∧
    dom listing = list_to_set (Activity.name <$> activity_table db) ∧
    ∀ activity_name,
      listing !! activity_name =
        (λ a, MkActivityInfo (Activity.description a) (Activity.schedule a)
                             (Activity.max_participants a) (roster_emails a db))
          <$> last (select_activity_by_name activity_name db).
Proof.
  rewrite get_activities_cases. eexists. split; [done|].
  assert (∀ n,
    foldl (λ result act, <[Activity.name act := activity_info db act]> result)
          (∅ : gmap string ActivityInfo) (activity_table db) !! n =
    activity_info db <$> last (select_activity_by_name n db)) as Hlookup.
  { intros n. rewrite listing_lookup. unfold select_activity_by_name.
    by destruct (last _). }
  split; [|done].
  apply set_eq. intros n.
  rewrite elem_of_dom, Hlookup, fmap_is_Some, last_is_Some, elem_of_list_to_set.
  unfold select_activity_by_name. split.
  - intros Hne.
    destruct (filter _ _) as [|a rest] eqn:Hsel; [done|].
    assert (a ∈ filter (λ a0, Activity.name a0 = n) (activity_table db))
      as [<- Hin]%list_elem_of_filter by (rewrite Hsel; left).
    by apply list_elem_of_fmap_2.
  - intros (a & -> & Hin)%list_elem_of_fmap Hnil.
    by apply (filter_nil_not_elem_of _ _ a Hnil).
Qed.

Lemma first_participant_is_Some db a email :
  is_Some (first (select_participant_by_email (Activity.id a) email db)) ↔
  email ∈ roster_emails a db.
Proof.
  unfold first, roster_emails. rewrite head_is_Some. split.
  - intros Hne.
    destruct (select_participant_by_email _ _ _) as [|p rest] eqn:Hsel; [done|].
    assert (p ∈ select_participant_by_email (Activity.id a) email db)
      as [Hin <-]%select_participant_by_email_elem by (rewrite Hsel; left).
    by apply list_elem_of_fmap_2.
  - intros (p & -> & Hp)%list_elem_of_fmap Hnil.
    assert (p ∈ select_participant_by_email (Activity.id a) (Participant.email p) db)
      as Hin by (by apply select_participant_by_email_elem).
    rewrite Hnil in Hin. by apply elem_of_nil in Hin.
Qed.

Lemma listing_shows_iff db activity_name email :
  activity_name_unique db →
  ∃ listing,
    request get_activities db = (OK listing, db) ∧
    ((∃ info, listing !! activity_name = Some info ∧
              email ∈ info_participants info) ↔
     ∃ a, activity_named activity_name db = Some a ∧ email ∈ roster_emails a db).
Proof.
  intros Hnames. rewrite get_activities_cases. eexists. split; [done|].
  destruct (activity_named activity_name db) as [a|] eqn:Hact.
  - destruct (activity_named_Some _ _ _ Hact) as [Hin <-].
    rewrite listing_entry by done. split.
    + intros (info & [= <-] & He). by exists a.
    + intros (? & [= <-] & He). by eexists.
  - apply activity_named_None in Hact.
    rewrite listing_other, lookup_empty by done.
    split; [by intros (? & ? & _)|by intros (? & ? & _)].
Qed.

(** X8: with activity names unique, the listing and the handlers agree on
    who is enrolled: the listing shows an email under a name exactly when
    a signup with that name and email is rejected as already signed up,
    and exactly when an unregister with them succeeds. *)
Theorem listing_agrees_with_handlers db activity_name email :
  activity_name_unique db →
  ∃ listing,
    request get_activities db = (OK listing, db) ∧
    ((∃ info, listing !! activity_name = Some info ∧
              email ∈ info_participants info) ↔
     request (signup_for_activity activity_name email) db =
       (HTTPError (MkHTTPException 400 "Student is already signed up"), db)) ∧
    ((∃ info, listing !! activity_name = Some info ∧
              email ∈ info_participants info) ↔
     ∃ body db',
       request (unregister_from_activity activity_name email) db = (OK body, db')).
Proof.
  intros Hnames.
  destruct (listing_shows_iff db activity_name email Hnames)
    as (listing & Hlist & Hshows).
  exists listing. split; [done|]. rewrite !Hshows.
  rewrite signup_cases, unregister_cases.
  destruct (activity_named activity_name db) as [a|]; last first.
  { split; (split; [by intros (? & ? & _)|]); [done|by intros (? & ? & ?)]. }
  split.
  - destruct (existsb _ _) eqn:Hany.
    + apply any_email in Hany. split; [done|]. intros _. by exists a.
    + apply any_email_false in Hany.
      split; [by intros (? & [= <-] & ?)|]. by case_bool_decide.
  - pose proof (first_participant_is_Some db a email) as Hfirst.
    destruct (first _) as [p|].
    + split; [by eauto|]. intros _. exists a. split; [done|].
      by apply Hfirst.
    + split; [|by intros (? & ? & ?)].
      intros (? & [= <-] & He). apply Hfirst in He. by destruct He.
Qed.

Lemma listing_agrees_with_handlers_witness :
  ∃ listing,
    request get_activities initial_db = (OK listing, initial_db) ∧
    ((∃ info, listing !! "Math Club" = Some info ∧
              "james@mergington.edu" ∈ info_participants info) ↔
     request (signup_for_activity "Math Club" "james@mergington.edu") initial_db =
       (HTTPError (MkHTTPException 400 "Student is already signed up"), initial_db)) ∧
    ((∃ info, listing !! "Math Club" = Some info ∧
              "james@mergington.edu" ∈ info_participants info) ↔
     ∃ body db',
       request (unregister_from_activity "Math Club" "james@mergington.edu")
               initial_db = (OK body, db')).
Proof.
  apply (listing_agrees_with_handlers initial_db "Math Club" "james@mergington.edu").
  by_computation.
Defined.

(** X9: in a reachable state every stored enrollment is visible: for each
    Participant row the listing has an entry whose participants include
    the row's email. *)
Theorem reachable_enrollments_listed db :
  reachable db →
  ∃ listing,
    request get_activities db = (OK listing, db) ∧
    Forall (λ p, ∃ a info,
                   a ∈ activity_table db ∧
                   Activity.id a = Participant.activity_id p ∧
                   listing !! Activity.name a = Some info ∧
                   Participant.email p ∈ info_participants info)
           (participant_table db).
Proof.
  intros (_ & _ & Hnames & Hfk)%reachable_data_model.
  rewrite get_activities_cases. eexists. split; [done|].
  unfold participant_fk in Hfk. rewrite Forall_forall in Hfk.
  apply Forall_forall. intros p Hp.
  pose proof (Hfk p Hp) as (a & Hid & Ha)%list_elem_of_fmap.
  exists a, (activity_info db a). split_and!; [done..|by apply listing_entry|].
  simpl. apply list_elem_of_fmap_2. by apply list_elem_of_filter.
Qed.

Lemma reachable_enrollments_listed_witness :
  ∃ listing,
    request get_activities (step (SignUp "Art Club" "zoe@mergington.edu") initial_db)
      = (OK listing, step (SignUp "Art Club" "zoe@mergington.edu") initial_db) ∧
    Forall (λ p, ∃ a info,
                   a ∈ activity_table
                         (step (SignUp "Art Club" "zoe@mergington.edu") initial_db) ∧
                   Activity.id a = Participant.activity_id p ∧
                   listing !! Activity.name a = Some info ∧
                   Participant.email p ∈ info_participants info)
           (participant_table
              (step (SignUp "Art Club" "zoe@mergington.edu") initial_db)).
Proof.
  apply (reachable_enrollments_listed
           (step (SignUp "Art Club" "zoe@mergington.edu") initial_db)).
  apply reachable_step, reachable_init.
Defined.

(** X10: no operation of the service creates, renames or edits an
    activity: in every reachable state the listing has the keys it had
    right after seeding, each with the same description, schedule and
    capacity. *)
Theorem reachable_listing_fixed db :
  reachable db →
  ∃ listing listing0,
    request get_activities db = (OK listing, db) ∧
    request get_activities initial_db = (OK listing0, initial_db) ∧
    ∀ activity_name,
      (λ info, (info_description info, info_schedule info,
                info_max_participants info)) <$> listing !! activity_name =
      (λ info, (info_description info, info_schedule info,
                info_max_participants info)) <$> listing0 !! activity_name.
Proof.
  intros Htable%reachable_activity_table.
  rewrite !get_activities_cases. do 2 eexists. split_and!; [done..|].
  intros n. rewrite !listing_lookup, Htable, !lookup_empty.
  by destruct (last _).
Qed.

Lemma reachable_listing_fixed_witness :
  ∃ listing listing0,
    request get_activities (step (Unregister "Gym Class" "john@mergington.edu")
                                 initial_db)
      = (OK listing, step (Unregister "Gym Class" "john@mergington.edu") initial_db) ∧
    request get_activities initial_db = (OK listing0, initial_db) ∧
    ∀ activity_name,
      (λ info, (info_description info, info_schedule info,
                info_max_participants info)) <$> listing !! activity_name =
      (λ info, (info_description info, info_schedule info,
                info_max_participants info)) <$> listing0 !! activity_name.
Proof.
  apply (reachable_listing_fixed
           (step (Unregister "Gym Class" "john@mergington.edu") initial_db)).
  apply reachable_step, reachable_init.
Defined.

(** ** Seeding and restarts *)

Lemma keeps_rows_refl db : keeps_rows db db.
Proof. by split. Qed.

Lemma keeps_rows_trans db1 db2 db3 :
  keeps_rows db1 db2 → keeps_rows db2 db3 → keeps_rows db1 db3.
Proof. intros [? ?] [? ?]. split; by etrans. Qed.

Lemma for_each_keeps_rows {A : Type} (xs : list A) (body : A → Session unit) :
  (∀ x db, ∃ db', body x db = inr ((), db') ∧ keeps_rows db db') →
  ∀ db, ∃ db', for_each xs body db = inr ((), db') ∧ keeps_rows db db'.
Proof.
  intros Hbody. induction xs as [|x xs IH]; intros db; simpl.
  - exists db. split; [done|apply keeps_rows_refl].
  - destruct (Hbody x db) as (db1 & Hx & Hkeep1).
    destruct (IH db1) as (db2 & Hxs & Hkeep2).
    exists db2. unfold mbind, session_bind. rewrite Hx.
    split; [done|by eapply keeps_rows_trans].
Qed.

Lemma add_participant_keeps_rows email activity_id db :
  ∃ db', add_participant email activity_id db = inr ((), db') ∧ keeps_rows db db'.
Proof.
  eexists. split; [done|]. split; simpl; [done|]. by apply prefix_app_r.
Qed.

Lemma seed_loop_keeps_rows
    (l : list (string * string * string * Z * list string)) db :
  ∃ db',
    for_each l (λ '(name, desc, sched, max_p, participants),
      activity ← add_activity name desc sched max_p;
      for_each participants (λ email,
        add_participant email (Activity.id activity))) db = inr ((), db') ∧
    keeps_rows db db' ∧
    (l ≠ [] → activity_table db' ≠ []).
Proof.
  revert db. induction l as [|[[[[name desc] sched] max_p] participants] l IH];
    intros db.
  - exists db. split_and!; [done|apply keeps_rows_refl|done].
  - cbn [for_each]. unfold mbind at 1, session_bind at 1.
    unfold mbind at 1, session_bind at 1. unfold add_activity at 1.
    set (activity := Activity.Build _ name desc sched max_p).
    set (db1 := MkDB (activity_table db ++ [activity]) (participant_table db)).
    destruct (for_each_keeps_rows participants
                (λ email, add_participant email (Activity.id activity))
                (λ x d, add_participant_keeps_rows x _ d) db1)
      as (db2 & Hloop & Hkeep2).
    rewrite Hloop.
    destruct (IH db2) as (db3 & Hrest & Hkeep3 & _).
    exists db3. split_and!; [done| |].
    + eapply keeps_rows_trans; [|exact Hkeep3].
      eapply keeps_rows_trans; [|exact Hkeep2].
      split; simpl; [by apply prefix_app_r|done].
    + intros _.
      destruct Hkeep2 as [[more2 Hacts2] _]. destruct Hkeep3 as [[more3 Hacts3] _].
      rewrite Hacts3, Hacts2. simpl. by destruct (activity_table db).
Qed.

Lemma seed_data_cases db :
  ∃ db',
    request seed_data db = (OK (), db') ∧
    keeps_rows db db' ∧
    activity_table db' ≠ [] ∧
    (activity_table db ≠ [] → db' = db).
Proof.
  unfold request, seed_data, exec, mbind at 1, session_bind at 1.
  destruct (activity_table db) as [|a acts] eqn:Hacts.
  - destruct (seed_loop_keeps_rows samples db) as (db' & Hloop & Hkeep & Hne).
    rewrite Hloop. exists db'. split_and!; [reflexivity|exact Hkeep| |by intros []].
    apply Hne. unfold samples. discriminate.
  - exists db. unfold mret, session_ret. rewrite Hacts.
    split_and!; [done|apply keeps_rows_refl|done..].
Qed.

(** X11: seeding never fails and never removes, moves or edits a stored
    row: both tables of the database it leaves start with the rows they
    had; the Activity table is then non-empty, so seeding once more
    changes nothing. *)
Theorem seed_data_keeps_rows db :
  ∃ db',
    request seed_data db = (OK (), db') ∧
    activity_table db `prefix_of` activity_table db' ∧
    participant_table db `prefix_of` participant_table db' ∧
    activity_table db' ≠ [] ∧
    request seed_data db' = (OK (), db').
Proof.
  destruct (seed_data_cases db) as (db' & Hseed & [Hacts Hparts] & Hne & _).
  exists db'. split_and!; [done..|].
  destruct (seed_data_cases db') as (db'' & Hagain & _ & _ & Hsame).
  rewrite Hagain. f_equal. apply (Hsame Hne).
Qed.

Lemma create_db_and_tables_Some db : create_db_and_tables (Some db) = db.
Proof. reflexivity. Qed.

(** X12: starting the application on a fresh database file gives the
    seeded state, and starting it again on the database a start left
    behind changes nothing. *)
Theorem on_startup_idempotent :
  on_startup None = initial_db ∧
  ∀ file, on_startup (Some (on_startup file)) = on_startup file.
Proof.
  split.
  { unfold on_startup, initial_db.
    by change (create_db_and_tables None) with empty_db. }
  intros file. unfold on_startup.
  destruct (seed_data_cases (create_db_and_tables file))
    as (db' & Hseed & _ & Hne & _).
  rewrite Hseed. cbn [snd]. rewrite create_db_and_tables_Some.
  destruct (seed_data_cases db') as (db'' & Hagain & _ & _ & Hsame).
  rewrite Hagain. apply (Hsame Hne).
Qed.

(** X13: restarting the application in any reachable state keeps the
    database as it is: the enrollments made through the service survive a
    restart and nothing is seeded twice. *)
Theorem on_startup_keeps_reachable db :
  reachable db → on_startup (Some db) = db.
Proof.
  intros Htable%reachable_activity_table.
  unfold on_startup. rewrite create_db_and_tables_Some.
  destruct (seed_data_cases db) as (db' & Hseed & _ & _ & Hsame).
  rewrite Hseed. apply Hsame. rewrite Htable. by vm_compute.
Qed.

Lemma on_startup_keeps_reachable_witness :
  on_startup (Some (step (SignUp "Chess Club" "zoe@mergington.edu") initial_db)) =
  step (SignUp "Chess Club" "zoe@mergington.edu") initial_db.
Proof.
  apply (on_startup_keeps_reachable
           (step (SignUp "Chess Club" "zoe@mergington.edu") initial_db)).
  apply reachable_step, reachable_init.
Defined.

(** ** Rows doubled by a race *)

(** X14: an unregister removes at most one row. With Participant ids
    unique, the number of rows carrying the activity's id and the email
    drops by exactly one when there is such a row and stays zero
    otherwise, so a student entered twice is still enrolled after one
    unregister; the rows of every other email stay as they were. *)
Theorem unregister_removes_one_row db activity_name email a outcome db1 :
  participant_pk db →
  activity_named activity_name db = Some a →
  request (unregister_from_activity activity_name email) db = (outcome, db1) →
  length (select_participant_by_email (Activity.id a) email db1) =
    pred (length (select_participant_by_email (Activity.id a) email db)) ∧
  ∀ other, other ≠ email →
    select_participant_by_email (Activity.id a) other db1 =
    select_participant_by_email (Activity.id a) other db.
Proof.
  intros Hpk Hact Hreq.
  destruct outcome as [body|exc]; last first.
  { rewrite unregister_cases, Hact in Hreq.
    destruct (first _) as [p|] eqn:Hfirst; [done|].
    injection Hreq as _ <-. split; [|done].
    apply head_None in Hfirst. by rewrite Hfirst. }
  destruct (unregister_ok_shape _ _ _ _ _ _ Hpk Hact Hreq)
    as (p & before & after & Hemail & Hid & Htable & ->).
  unfold select_participant_by_email, select_participants. simpl.
  rewrite Htable. split.
  - rewrite !list_filter_filter, !filter_app, filter_cons_True, !length_app
      by done.
    simpl. lia.
  - intros other Hother.
    rewrite !list_filter_filter, !filter_app, filter_cons_False; [done|].
    intros [Hp _]. congruence.
Qed.

Lemma unregister_removes_one_row_witness :
  length (select_participant_by_email (Activity.id chess_club) "zoe@mergington.edu"
            (step (Unregister "Chess Club" "zoe@mergington.edu") doubled_db)) =
    pred (length (select_participant_by_email (Activity.id chess_club)
                    "zoe@mergington.edu" doubled_db)) ∧
  ∀ other, other ≠ "zoe@mergington.edu" →
    select_participant_by_email (Activity.id chess_club) other
      (step (Unregister "Chess Club" "zoe@mergington.edu") doubled_db) =
    select_participant_by_email (Activity.id chess_club) other doubled_db.
Proof.
  apply (unregister_removes_one_row doubled_db "Chess Club" "zoe@mergington.edu"
           chess_club
           (OK {[ "message" := "Unregistered zoe@mergington.edu from Chess Club" ]})).
  - by_computation.
  - by vm_compute.
  - by vm_compute.
Defined.

(** ** The listing before and after a change *)

Lemma select_activity_unique db activity_name a :
  activity_name_unique db →
  activity_named activity_name db = Some a →
  select_activity_by_name activity_name db = [a].
Proof.
  unfold activity_name_unique, activity_named, first, select_activity_by_name.
  induction (activity_table db) as [|b acts IH]; [done|].
  rewrite fmap_cons, NoDup_cons, filter_cons. intros [Hb Hacts].
  case_decide as Hname; [|by apply IH].
  intros [= ->]. f_equal.
  destruct (filter _ acts) as [|c rest] eqn:Hsel; [done|].
  assert (c ∈ filter (λ x, Activity.name x = activity_name) acts)
    as [Hc Hin]%list_elem_of_filter by (rewrite Hsel; left).
  destruct Hb. rewrite Hname, <-Hc. by apply list_elem_of_fmap_2.
Qed.

Lemma listing_entry_other db db' (acts : list Activity.t) a activity_name :
  NoDup (Activity.id <$> acts) →
  a ∈ acts →
  Activity.name a ≠ activity_name →
  (∀ b, Activity.id b ≠ Activity.id a → roster b db' = roster b db) →
  (activity_info db' <$> last (filter (λ b, Activity.name b = activity_name) acts)) =
  (activity_info db <$> last (filter (λ b, Activity.name b = activity_name) acts)).
Proof.
  intros Hpk Ha Hname Hframe.
  destruct (last _) as [b|] eqn:Hlast; [|done]. simpl. f_equal.
  apply last_Some_elem_of, list_elem_of_filter in Hlast as [Hb Hin].
  unfold activity_info. f_equal. fold (roster b db') (roster b db).
  rewrite Hframe; [done|]. intros Hid. apply Hname. rewrite <-Hb. f_equal.
  symmetry. by apply (key_inj Activity.id acts).
Qed.

(** X15: with activity names and ids unique, a successful signup changes
    the listing in one place only: the entry of the named activity gets
    the email appended to its participants, and every other entry and
    every other field stay as they were. *)
Theorem signup_listing db activity_name email body db1 :
  activity_name_unique db →
  activity_pk db →
  request (signup_for_activity activity_name email) db = (OK body, db1) →
  ∃ listing listing1 info,
    request get_activities db = (OK listing, db) ∧
    request get_activities db1 = (OK listing1, db1) ∧
    listing !! activity_name = Some info ∧
    listing1 =
      <[activity_name :=
          MkActivityInfo (info_description info) (info_schedule info)
                         (info_max_participants info)
                         (info_participants info ++ [email])]> listing.
Proof.
  intros Hnames Hpk. rewrite signup_cases.
  destruct (activity_named activity_name db) as [a|] eqn:Hact; [|done].
  destruct (existsb _ _); [done|]. case_bool_decide; [done|].
  intros [= _ <-]. set (p := Participant.Build _ email (Activity.id a)).
  destruct (activity_named_Some _ _ _ Hact) as [Ha Hname].
  rewrite !get_activities_cases. do 2 eexists. exists (activity_info db a).
  split_and!; [done..| |].
  { rewrite <-Hname. by apply listing_entry. }
  apply map_eq. intros k. cbn [activity_table].
  rewrite lookup_insert, !listing_lookup. case_decide as Hk.
  - subst k. fold (select_activity_by_name activity_name db).
    rewrite (select_activity_unique _ _ a) by done. simpl. f_equal.
    unfold activity_info at 1. f_equal.
    fold (roster a (MkDB (activity_table db) (participant_table db ++ [p]))).
    by rewrite roster_add, decide_True, fmap_app.
  - rewrite lookup_empty.
    pose proof (listing_entry_other db
                  (MkDB (activity_table db) (participant_table db ++ [p]))
                  (activity_table db) a k Hpk Ha) as Hother.
    destruct (last _) as [b|]; [|done]. apply Hother; [congruence|].
    intros b' Hid. rewrite roster_add. simpl.
    rewrite decide_False by done. apply app_nil_r.
Qed.

Lemma signup_listing_witness :
  ∃ listing listing1 info,
    request get_activities initial_db = (OK listing, initial_db) ∧
    request get_activities
      (step (SignUp "Drama Club" "zoe@mergington.edu") initial_db) =
      (OK listing1, step (SignUp "Drama Club" "zoe@mergington.edu") initial_db) ∧
    listing !! "Drama Club" = Some info ∧
    listing1 =
      <["Drama Club" :=
          MkActivityInfo (info_description info) (info_schedule info)
                         (info_max_participants info)
                         (info_participants info ++ ["zoe@mergington.edu"])]> listing.
Proof.
  apply (signup_listing initial_db "Drama Club" "zoe@mergington.edu"
           {[ "message" := "Signed up zoe@mergington.edu for Drama Club" ]}).
  - by_computation.
  - by_computation.
  - by vm_compute.
Defined.

(** X16: with activity names and ids and Participant ids unique, a
    successful unregister changes the listing in one place only: the
    entry of the named activity loses the first occurrence of the email
    among its participants, the others keeping their order, and every
    other entry and every other field stay as they were. *)
Theorem unregister_listing db activity_name email body db1 :
  activity_name_unique db →
  activity_pk db →
  participant_pk db →
  request (unregister_from_activity activity_name email) db = (OK body, db1) →
  ∃ listing listing1 info earlier later,
    request get_activities db = (OK listing, db) ∧
    request get_activities db1 = (OK listing1, db1) ∧
    listing !! activity_name = Some info ∧
    info_participants info = earlier ++ email :: later ∧
    (email ∉ earlier) ∧
    listing1 =
      <[activity_name :=
          MkActivityInfo (info_description info) (info_schedule info)
                         (info_max_participants info) (earlier ++ later)]> listing.
Proof.
  intros Hnames Hapk Hppk. rewrite unregister_cases.
  destruct (activity_named activity_name db) as [a|] eqn:Hact; [|done].
  destruct (first _) as [p|] eqn:Hfirst; [|done]. intros [= _ <-].
  destruct (first_participant _ _ _ _ Hfirst)
    as (Hemail & Hid & before & after & Htable & Hbefore).
  destruct (activity_named_Some _ _ _ Hact) as [Ha Hname].
  rewrite Htable, (delete_by_key Participant.id) by (by rewrite <-Htable).
  set (db1 := MkDB (activity_table db) (before ++ after)).
  assert (∀ b, roster b db =
               roster b (MkDB (activity_table db) before) ++
               (if decide (Participant.activity_id p = Activity.id b)
                then [p] else []) ++
               roster b (MkDB (activity_table db) after)) as Hsplit.
  { intros b. rewrite <-roster_split, <-Htable. by destruct db. }
  rewrite !get_activities_cases. do 2 eexists.
  exists (activity_info db a),
         (Participant.email <$> roster a (MkDB (activity_table db) before)),
         (Participant.email <$> roster a (MkDB (activity_table db) after)).
  split_and!; [done..| | | |].
  { rewrite <-Hname. by apply listing_entry. }
  { simpl. fold (roster a db). rewrite Hsplit, decide_True by done.
    rewrite fmap_app. simpl. by rewrite Hemail. }
  { intros (q & Hq & [Hqid Hqin]%list_elem_of_filter)%list_elem_of_fmap.
    rewrite Forall_forall in Hbefore. by apply (Hbefore q Hqin). }
  apply map_eq. intros k. change (activity_table db1) with (activity_table db).
  rewrite lookup_insert, !listing_lookup. case_decide as Hk.
  - subst k. fold (select_activity_by_name activity_name db).
    rewrite (select_activity_unique _ _ a) by done. simpl. f_equal.
    unfold activity_info at 1. f_equal. fold (roster a db1).
    unfold db1. by rewrite roster_join, fmap_app.
  - rewrite lookup_empty.
    pose proof (listing_entry_other db db1 (activity_table db) a k Hapk Ha)
      as Hother.
    destruct (last _) as [b|]; [|done]. apply Hother; [congruence|].
    intros b' Hne. unfold db1. rewrite roster_join, Hsplit, Hid.
    by rewrite decide_False by done.
Qed.

Lemma unregister_listing_witness :
  ∃ listing listing1 info earlier later,
    request get_activities initial_db = (OK listing, initial_db) ∧
    request get_activities
      (step (Unregister "Soccer Team" "noah@mergington.edu") initial_db) =
      (OK listing1, step (Unregister "Soccer Team" "noah@mergington.edu") initial_db) ∧
    listing !! "Soccer Team" = Some info ∧
    info_participants info = earlier ++ "noah@mergington.edu" :: later ∧
    ("noah@mergington.edu" ∉ earlier) ∧
    listing1 =
      <["Soccer Team" :=
          MkActivityInfo (info_description info) (info_schedule info)
                         (info_max_participants info) (earlier ++ later)]> listing.
Proof.
  apply (unregister_listing initial_db "Soccer Team" "noah@mergington.edu"
           {[ "message" := "Unregistered noah@mergington.edu from Soccer Team" ]}).
  - by_computation.
  - by_computation.
  - by_computation.
  - by vm_compute.
Defined.
